(** * drivers/syslog/syslog_filechannel.c

    A shallow embedding of the file-backed SYSLOG channel of NuttX:
    [log_rotate] and [syslog_file_channel], over an explicit world (the
    static pointer [g_syslog_file_channel], the pre-emption lock count, a
    file system of regular files, the table of open SYSLOG devices) and a
    trace of the calls the code makes to its collaborators. *)

From Stdlib Require Import ZArith Lia.
From stdpp Require Import gmap strings list fin_maps.

Local Open Scope Z_scope.

(** ** Configuration and constants

    Kconfig options and header constants the file uses but does not define
    ([nuttx/config.h], [fcntl.h], [sys/stat.h], [unistd.h]).  They are kept
    abstract: every theorem holds for all their values. *)

Record config := Config {
  CONFIG_SYSLOG_FILE_ROTATE : bool;      (* #ifdef CONFIG_SYSLOG_FILE_ROTATE *)
  CONFIG_SYSLOG_FILE_SIZE_LIMIT : Z;
  OK : Z;
  O_RDONLY : Z;
  O_WRONLY : Z;
  O_CREAT : Z;
  O_APPEND : Z;
  S_IROTH : Z;
  S_IRGRP : Z;
  S_IRUSR : Z;
  S_IWUSR : Z;
  F_OK : Z
}.

(** ** Data *)

(** A non-NULL [FAR struct syslog_channel_s *]; a pointer that may be NULL
    is an [option handle]. *)
Abbreviation handle := positive.

(** [struct stat], reduced to the one field the code reads. *)
Record stat := Stat { st_size : Z }.

(** The calls that matter to the claims, in the order the code makes them. *)
Inductive event : Type :=
| EvSchedLock
| EvSchedUnlock
| EvDevUninit (h : handle)
| EvDevInit (devpath : string) (oflags mode : Z) (r : option handle)
| EvChannel (h : handle) (rc : Z)
| EvStore (v : option handle)        (* a write to g_syslog_file_channel *)
| EvRemove (path : string)
| EvRename (oldpath newpath : string).

Record world := World {
  g_syslog_file_channel : option handle;   (* the static pointer, NULL at boot *)
  lockcount : nat;                         (* pre-emption lock nesting of the task *)
  files : gmap string (list Byte.byte);         (* regular files, by path *)
  fds : gmap nat string;                   (* open descriptors *)
  devs : gmap positive string;             (* initialized SYSLOG devices and their path *)
  trace : list event
}.

(** What the collaborators decide during one call: which of the calls
    fail, what the uninitialised [f_stat.st_size] on the stack of
    [log_rotate] reads as, and what [syslog_dev_initialize] and
    [syslog_channel] return. *)
Record env := Env {
  open_fault : bool;              (* open fails although the file exists *)
  fstat_fault : bool;             (* fstat fails and leaves f_stat as it was *)
  stack_st_size : Z;              (* indeterminate value of f_stat.st_size *)
  malloc_fault : bool;            (* malloc returns NULL *)
  dev_init_result : option handle;
  channel_ret : Z
}.

(** ** The state monad of the embedding *)

Definition M (A : Type) : Type := world -> A * world.

Definition ret {A : Type} (a : A) : M A := fun w => (a, w).

Definition bind {A B : Type} (m : M A) (k : A -> M B) : M B :=
  fun w => let (a, w') := m w in k a w'.

Definition eval {A : Type} (m : M A) (w : world) : A := fst (m w).
Definition exec {A : Type} (m : M A) (w : world) : world := snd (m w).

Declare Scope sys_scope.
Delimit Scope sys_scope with sys.
Notation "x <- m ;; k" := (bind m (fun x => k))
  (at level 100, m at next level, k at level 200, right associativity) : sys_scope.
Notation "m ;; k" := (bind m (fun _ => k))
  (at level 100, k at level 200, right associativity) : sys_scope.
Local Open Scope sys_scope.

(** Field updates. *)

Definition set_g (v : option handle) (w : world) : world :=
  {| g_syslog_file_channel := v; lockcount := lockcount w; files := files w;
     fds := fds w; devs := devs w; trace := trace w |}.

Definition set_lockcount (n : nat) (w : world) : world :=
  {| g_syslog_file_channel := g_syslog_file_channel w; lockcount := n;
     files := files w; fds := fds w; devs := devs w; trace := trace w |}.

Definition set_files (f : gmap string (list Byte.byte)) (w : world) : world :=
  {| g_syslog_file_channel := g_syslog_file_channel w; lockcount := lockcount w;
     files := f; fds := fds w; devs := devs w; trace := trace w |}.

Definition set_fds (t : gmap nat string) (w : world) : world :=
  {| g_syslog_file_channel := g_syslog_file_channel w; lockcount := lockcount w;
     files := files w; fds := t; devs := devs w; trace := trace w |}.

Definition set_devs (d : gmap positive string) (w : world) : world :=
  {| g_syslog_file_channel := g_syslog_file_channel w; lockcount := lockcount w;
     files := files w; fds := fds w; devs := d; trace := trace w |}.

Definition emit (ev : event) (w : world) : world :=
  {| g_syslog_file_channel := g_syslog_file_channel w; lockcount := lockcount w;
     files := files w; fds := fds w; devs := devs w; trace := trace w ++ [ev] |}.

Section Syslog.

Variable cfg : config.
Variable e : env.

(** ** The collaborators

    The C library, the scheduler and the rest of the SYSLOG subsystem are
    not part of the file.  The file system holds regular files only; a
    call that can fail asks [e]. *)

(** Modelled from the spec: open of the C library (not under src/).
    Without O_CREAT it fails on a missing file, and it may fail on an
    existing one; on success it returns a fresh, non-negative descriptor. *)
Definition open (path : string) (oflags : Z) : M Z := fun w =>
  if open_fault e then (-1, w)
  else match files w !! path with
       | None => (-1, w)
       | Some _ =>
           let fd := fresh (dom (fds w)) in
           (Z.of_nat fd, set_fds (<[fd := path]> (fds w)) w)
       end.

(** Modelled from the spec: fstat of the C library (not under src/).  It
    stores the length of the file behind the descriptor in the buffer and
    returns 0, or fails, returns -1 and leaves the buffer as it was. *)
Definition fstat (fd : Z) (buf : stat) : M (Z * stat) := fun w =>
  if fstat_fault e then ((-1, buf), w)
  else match fds w !! Z.to_nat fd with
       | None => ((-1, buf), w)
       | Some path =>
           match files w !! path with
           | None => ((-1, buf), w)
           | Some data => ((0, {| st_size := Z.of_nat (length data) |}), w)
           end
       end.

(** Modelled from the spec: close of the C library (not under src/). *)
Definition close (fd : Z) : M Z := fun w =>
  (0, set_fds (delete (Z.to_nat fd) (fds w)) w).

(** Modelled from the spec: access of the C library (not under src/),
    asked whether the file exists. *)
Definition access (path : string) (amode : Z) : M Z := fun w =>
  match files w !! path with
  | Some _ => (0, w)
  | None => (-1, w)
  end.

(** Modelled from the spec: remove of the C library (not under src/),
    which deletes the file at the path. *)
Definition remove (path : string) : M Z := fun w =>
  let w1 := emit (EvRemove path) w in
  match files w !! path with
  | Some _ => (0, set_files (delete path (files w)) w1)
  | None => (-1, w1)
  end.

(** Modelled from the spec: rename of the C library (not under src/),
    which moves the file onto the new name and replaces what was there. *)
Definition rename (oldpath newpath : string) : M Z := fun w =>
  let w1 := emit (EvRename oldpath newpath) w in
  match files w !! oldpath with
  | Some data => (0, set_files (<[newpath := data]> (delete oldpath (files w))) w1)
  | None => (-1, w1)
  end.

(** Modelled from the spec: malloc of the C library (not under src/).  A
    successful [malloc n] yields a buffer of [n] bytes, here its capacity. *)
Definition malloc (n : Z) : M (option Z) := fun w =>
  if malloc_fault e then (None, w) else (Some n, w).

(** Modelled from the spec: free of the C library (not under src/). *)
Definition free (buf : option Z) : M unit := ret tt.

Definition strlen (s : string) : Z := Z.of_nat (String.length s).

(** [sprintf(backup_file, "%s.0", log_file)]: the path followed by ".0". *)
Definition sprintf_s_dot_0 (s : string) : string := s +:+ ".0".

(** Modelled from the spec: sched_lock of the scheduler (not under src/),
    which suspends pre-emption; the lock counts its nesting. *)
Definition sched_lock : M unit := fun w =>
  (tt, set_lockcount (S (lockcount w)) (emit EvSchedLock w)).

(** Modelled from the spec: sched_unlock of the scheduler (not under
    src/), which undoes one sched_lock. *)
Definition sched_unlock : M unit := fun w =>
  (tt, set_lockcount (Nat.pred (lockcount w)) (emit EvSchedUnlock w)).

(** Modelled from the spec: initialize file device, syslog_dev_initialize
    (not under src/).  It either fails and returns NULL, or opens the file
    (creating it when it is missing) and returns a new handle, entered in
    the device table. *)
Definition syslog_dev_initialize (devpath : string) (oflags mode : Z)
  : M (option handle) := fun w =>
  let w1 := emit (EvDevInit devpath oflags mode (dev_init_result e)) w in
  match dev_init_result e with
  | None => (None, w1)
  | Some h =>
      let fs' := match files w !! devpath with
                 | Some _ => files w
                 | None => <[devpath := []]> (files w)
                 end in
      (Some h, set_devs (<[h := devpath]> (devs w)) (set_files fs' w1))
  end.

(** Modelled from the spec: uninitialize file device,
    syslog_dev_uninitialize (not under src/), which closes the device and
    drops its handle. *)
Definition syslog_dev_uninitialize (h : handle) : M unit := fun w =>
  (tt, set_devs (delete h (devs w)) (emit (EvDevUninit h) w)).

(** Modelled from the spec: set active channel, syslog_channel (not under
    src/), which reports OK or an error. *)
Definition syslog_channel (h : handle) : M Z := fun w =>
  (channel_ret e, emit (EvChannel h (channel_ret e)) w).

(** Reads and writes of the static pointer. *)
Definition load_g : M (option handle) := fun w => (g_syslog_file_channel w, w).

Definition store_g (v : option handle) : M unit := fun w =>
  (tt, set_g v (emit (EvStore v) w)).

(** ** The code *)

Definition OPEN_FLAGS : Z := Z.lor (Z.lor (O_WRONLY cfg) (O_CREAT cfg)) (O_APPEND cfg).

Definition OPEN_MODE : Z :=
  Z.lor (Z.lor (Z.lor (S_IROTH cfg) (S_IRGRP cfg)) (S_IRUSR cfg)) (S_IWUSR cfg).

(** [log_rotate]: each early [return] of the source is the [ret tt] of
    the corresponding branch.  [f_stat] starts out uninitialised. *)
Definition log_rotate (log_file : string) : M unit :=
  let f_stat := {| st_size := stack_st_size e |} in
  fd <- open log_file (O_RDONLY cfg) ;;
  if fd <? 0 then ret tt
  else
    r <- fstat fd f_stat ;;
    let f_stat := snd r in
    let size := st_size f_stat in
    close fd ;;
    if size <? CONFIG_SYSLOG_FILE_SIZE_LIMIT cfg then ret tt
    else
      backup_file <- malloc (strlen log_file + 3) ;;
      match backup_file with
      | None => ret tt
      | Some _ =>
          let backup_name := sprintf_s_dot_0 log_file in
          rc <- access backup_name (F_OK cfg) ;;
          (if rc =? 0 then remove backup_name ;; ret tt else ret tt) ;;
          rename log_file backup_name ;;
          free backup_file
      end.

(** [syslog_file_channel]: [goto errout_with_lock] skips the binding step
    and falls to the common exit. *)
Definition syslog_file_channel (devpath : string) : M (option handle) :=
  sched_lock ;;
  g0 <- load_g ;;
  match g0 with
  | Some h => syslog_dev_uninitialize h
  | None => ret tt
  end ;;
  (if CONFIG_SYSLOG_FILE_ROTATE cfg then log_rotate devpath else ret tt) ;;
  r <- syslog_dev_initialize devpath OPEN_FLAGS OPEN_MODE ;;
  store_g r ;;
  g1 <- load_g ;;
  match g1 with
  | None => ret tt
  | Some h =>
      rc <- syslog_channel h ;;
      if negb (rc =? OK cfg) then
        syslog_dev_uninitialize h ;;
        store_g None
      else ret tt
  end ;;
  sched_unlock ;;
  load_g.

End Syslog.

(** ** Closed forms and trace predicates *)

(** The size [log_rotate] compares with the limit: what [fstat] stored,
    or what [f_stat.st_size] held before when [fstat] failed. *)
Definition observed_size (e : env) (data : list Byte.byte) : Z :=
  if fstat_fault e then stack_st_size e else Z.of_nat (length data).

(** The world after the three calls access, remove and rename of a
    rotation of [log_file], whose contents are [data]. *)
Definition rotate_files (log_file : string) (data : list Byte.byte) (w : world)
  : world :=
  let backup := sprintf_s_dot_0 log_file in
  match files w !! backup with
  | Some _ =>
      set_files (<[backup := data]> (delete log_file (delete backup (files w))))
        (emit (EvRename log_file backup) (emit (EvRemove backup) w))
  | None =>
      set_files (<[backup := data]> (delete log_file (files w)))
        (emit (EvRename log_file backup) w)
  end.

Definition is_fs_event (ev : event) : bool :=
  match ev with
  | EvRemove _ | EvRename _ _ => true
  | _ => false
  end.

Definition is_lock_event (ev : event) : bool :=
  match ev with
  | EvSchedLock | EvSchedUnlock => true
  | _ => false
  end.

(** The events from the binding step to the common exit. *)
Definition bind_events (cfg : config) (e : env) : list event :=
  match dev_init_result e with
  | None => []
  | Some h =>
      EvChannel h (channel_ret e) ::
      (if channel_ret e =? OK cfg then [] else [EvDevUninit h; EvStore None])
  end.

(** All events of one call that found [g0] in the static pointer and
    whose rotation step emitted [rot]. *)
Definition channel_events (cfg : config) (e : env) (g0 : option handle)
    (devpath : string) (rot : list event) : list event :=
  EvSchedLock ::
  match g0 with Some h => [EvDevUninit h] | None => [] end ++
  rot ++
  EvDevInit devpath (OPEN_FLAGS cfg) (OPEN_MODE cfg) (dev_init_result e) ::
  EvStore (dev_init_result e) ::
  bind_events cfg e ++ [EvSchedUnlock].

(** The pointer a call leaves in [g_syslog_file_channel]. *)
Definition final_g (cfg : config) (e : env) : option handle :=
  match dev_init_result e with
  | None => None
  | Some h => if channel_ret e =? OK cfg then Some h else None
  end.

(** The device table a call leaves. *)
Definition final_devs (cfg : config) (e : env) (devpath : string) (w : world)
  : gmap positive string :=
  let d1 := match g_syslog_file_channel w with
            | Some h => delete h (devs w)
            | None => devs w
            end in
  match dev_init_result e with
  | None => d1
  | Some h =>
      if channel_ret e =? OK cfg then <[h := devpath]> d1
      else delete h (<[h := devpath]> d1)
  end.

(** The (path, flags, mode) of every syslog_dev_initialize call of a trace. *)
Fixpoint dev_init_calls (l : list event) : list (string * Z * Z) :=
  match l with
  | [] => []
  | EvDevInit p f m _ :: l' => (p, f, m) :: dev_init_calls l'
  | _ :: l' => dev_init_calls l'
  end.

(** The handles that syslog_channel accepted in a trace. *)
Fixpoint bound_channels (ok : Z) (l : list event) : list handle :=
  match l with
  | [] => []
  | EvChannel h rc :: l' =>
      if rc =? ok then h :: bound_channels ok l' else bound_channels ok l'
  | _ :: l' => bound_channels ok l'
  end.

(** Lock discipline of a trace, from nesting [depth]: the lock calls are
    well bracketed and every write to the static pointer happens at a
    nesting of at least one.  The result is the nesting at the end. *)
Fixpoint lock_discipline (depth : nat) (l : list event) : option nat :=
  match l with
  | [] => Some depth
  | EvSchedLock :: l' => lock_discipline (S depth) l'
  | EvSchedUnlock :: l' =>
      match depth with
      | O => None
      | S d => lock_discipline d l'
      end
  | EvStore _ :: l' =>
      match depth with
      | O => None
      | S _ => lock_discipline depth l'
      end
  | _ :: l' => lock_discipline depth l'
  end.

(** The value of the static pointer after the writes of a trace. *)
Fixpoint replay_g (g0 : option handle) (l : list event) : option handle :=
  match l with
  | [] => g0
  | EvStore v :: l' => replay_g v l'
  | _ :: l' => replay_g g0 l'
  end.

(** ** Sample configuration and worlds *)

(** NuttX's values of the header constants, with a limit of four bytes. *)
Definition small_cfg : config :=
  {| CONFIG_SYSLOG_FILE_ROTATE := true; CONFIG_SYSLOG_FILE_SIZE_LIMIT := 4;
     OK := 0; O_RDONLY := 1; O_WRONLY := 2; O_CREAT := 4; O_APPEND := 16;
     S_IROTH := 4; S_IRGRP := 32; S_IRUSR := 256; S_IWUSR := 128; F_OK := 0 |}.

Definition env_ok (h : handle) : env :=
  {| open_fault := false; fstat_fault := false; stack_st_size := 0;
     malloc_fault := false; dev_init_result := Some h; channel_ret := 0 |}.

Definition env_no_memory : env :=
  {| open_fault := false; fstat_fault := false; stack_st_size := 0;
     malloc_fault := true; dev_init_result := Some 7%positive; channel_ret := 0 |}.

Definition env_fstat_fails : env :=
  {| open_fault := false; fstat_fault := true; stack_st_size := 4096;
     malloc_fault := false; dev_init_result := Some 7%positive; channel_ret := 0 |}.

Definition env_bind_fails : env :=
  {| open_fault := false; fstat_fault := false; stack_st_size := 0;
     malloc_fault := false; dev_init_result := Some 7%positive; channel_ret := -22 |}.

Definition boot_world (fs : gmap string (list Byte.byte)) : world :=
  {| g_syslog_file_channel := None; lockcount := 0; files := fs;
     fds := ∅; devs := ∅; trace := [] |}.

Definition five_bytes : list Byte.byte :=
  [Byte.x68; Byte.x65; Byte.x6c; Byte.x6c; Byte.x6f].

(** A five-byte log with an older one-byte backup, and a one-byte log. *)
Definition big_log_fs : gmap string (list Byte.byte) :=
  <["/log" := five_bytes]> (<["/log.0" := [Byte.x21]]> ∅).

Definition small_log_fs : gmap string (list Byte.byte) :=
  <["/log" := [Byte.x21]]> ∅.

(** ** Sequences of calls and the ownership of the device handle *)

(** Board bring-up logic may call [syslog_file_channel] any number of
    times; each call comes with the outcomes of its collaborators and its
    path. *)
Fixpoint run_calls (cfg : config) (calls : list (env * string)) (w : world)
  : world :=
  match calls with
  | [] => w
  | (e, devpath) :: calls' =>
      run_calls cfg calls' (exec (syslog_file_channel cfg e devpath) w)
  end.

(** Ownership discipline of a trace, from the handle [held]: a device is
    initialized only while no handle is held (otherwise the one held
    would leak), and only the handle held is uninitialized (never a stale
    one, never the same one twice).  The result is the handle held at the
    end. *)
Fixpoint owner_discipline (held : option handle) (l : list event)
  : option (option handle) :=
  match l with
  | [] => Some held
  | EvDevInit _ _ _ r :: l' =>
      match held with
      | Some _ => None
      | None => owner_discipline r l'
      end
  | EvDevUninit h :: l' =>
      match held with
      | Some h' => if Pos.eqb h h' then owner_discipline None l' else None
      | None => None
      end
  | _ :: l' => owner_discipline held l'
  end.

(** The sample configuration with CONFIG_SYSLOG_FILE_ROTATE not set. *)
Definition small_cfg_no_rotate : config :=
  {| CONFIG_SYSLOG_FILE_ROTATE := false; CONFIG_SYSLOG_FILE_SIZE_LIMIT := 4;
     OK := 0; O_RDONLY := 1; O_WRONLY := 2; O_CREAT := 4; O_APPEND := 16;
     S_IROTH := 4; S_IRGRP := 32; S_IRUSR := 256; S_IWUSR := 128; F_OK := 0 |}.

Definition env_init_fails : env :=
  {| open_fault := false; fstat_fault := false; stack_st_size := 0;
     malloc_fault := false; dev_init_result := None; channel_ret := 0 |}.

(** ** The calls whose results the code discards *)

(** Whether remove and rename fail.  [log_rotate] discards both results,
    so a failure does not change its control flow, only the files. *)
Record fs_env := FsEnv {
  remove_fault : bool;
  rename_fault : bool
}.

(** Modelled from the spec: remove of the C library (not under src/),
    which may also fail on an existing file and then leaves it there. *)
Definition remove_io (fe : fs_env) (path : string) : M Z := fun w =>
  if remove_fault fe then (-1, emit (EvRemove path) w) else remove path w.

(** Modelled from the spec: rename of the C library (not under src/),
    which may also fail on an existing file and then moves nothing. *)
Definition rename_io (fe : fs_env) (oldpath newpath : string) : M Z := fun w =>
  if rename_fault fe then (-1, emit (EvRename oldpath newpath) w)
  else rename oldpath newpath w.

(** [log_rotate] with these two calls allowed to fail: the same body,
    line by line. *)
Definition log_rotate_io (cfg : config) (e : env) (fe : fs_env)
    (log_file : string) : M unit :=
  let f_stat := {| st_size := stack_st_size e |} in
  fd <- open e log_file (O_RDONLY cfg) ;;
  if fd <? 0 then ret tt
  else
    r <- fstat e fd f_stat ;;
    let f_stat := snd r in
    let size := st_size f_stat in
    close fd ;;
    if size <? CONFIG_SYSLOG_FILE_SIZE_LIMIT cfg then ret tt
    else
      backup_file <- malloc e (strlen log_file + 3) ;;
      match backup_file with
      | None => ret tt
      | Some _ =>
          let backup_name := sprintf_s_dot_0 log_file in
          rc <- access backup_name (F_OK cfg) ;;
          (if rc =? 0 then remove_io fe backup_name ;; ret tt else ret tt) ;;
          rename_io fe log_file backup_name ;;
          free backup_file
      end.

Definition fs_ok : fs_env := {| remove_fault := false; rename_fault := false |}.

Definition fs_remove_fails : fs_env :=
  {| remove_fault := true; rename_fault := false |}.

Definition fs_rename_fails : fs_env :=
  {| remove_fault := false; rename_fault := true |}.

Definition env_open_fails : env :=
  {| open_fault := true; fstat_fault := false; stack_st_size := 0;
     malloc_fault := false; dev_init_result := Some 7%positive; channel_ret := 0 |}.

Definition env_fstat_fails_low : env :=
  {| open_fault := false; fstat_fault := true; stack_st_size := 0;
     malloc_fault := false; dev_init_result := Some 7%positive; channel_ret := 0 |}.


(** ** Auxiliary facts *)

Lemma set_fds_same (w : world) : set_fds (fds w) w = w.
Proof. by destruct w. Qed.

Lemma set_fds_twice (t t' : gmap nat string) (w : world) :
  set_fds t (set_fds t' w) = set_fds t w.
Proof. done. Qed.

Lemma open_close_fds (t : gmap nat string) (path : string) :
  delete (fresh (dom t)) (<[fresh (dom t) := path]> t) = t.
Proof. apply delete_insert_dom, is_fresh. Qed.

Lemma fd_nonneg (n : nat) : (Z.of_nat n <? 0) = false.
Proof. apply Z.ltb_ge. lia. Qed.

Lemma string_length_append (s t : string) :
  String.length (s +:+ t) = (String.length s + String.length t)%nat.
Proof. induction s as [|c s IH]; simpl; [done | by rewrite IH]. Qed.

Lemma backup_name_ne (s : string) : sprintf_s_dot_0 s ≠ s.
Proof.
  unfold sprintf_s_dot_0. intros H.
  apply (f_equal String.length) in H. rewrite string_length_append in H.
  simpl in H. lia.
Qed.

(** The buffer of strlen + 3 bytes holds the backup name and its NUL. *)
Lemma backup_name_fits (s : string) :
  strlen (sprintf_s_dot_0 s) + 1 = strlen s + 3.
Proof. unfold strlen, sprintf_s_dot_0. rewrite string_length_append. simpl. lia. Qed.

Section LogRotate.

Variable cfg : config.
Variable e : env.

(** When open fails, [log_rotate] returns at once. *)
Lemma log_rotate_open_fails (log_file : string) (w : world) :
  open_fault e = true ∨ files w !! log_file = None →
  log_rotate cfg e log_file w = (tt, w).
Proof.
  intros H. unfold log_rotate, bind, open.
  destruct (open_fault e); [done|].
  destruct H as [H|H]; [done|]. by rewrite H.
Qed.

(** When open succeeds, the outcome depends on the observed size and on
    malloc only. *)
Lemma log_rotate_opened (log_file : string) (data : list Byte.byte) (w : world) :
  open_fault e = false → files w !! log_file = Some data →
  log_rotate cfg e log_file w =
    (tt, if observed_size e data <? CONFIG_SYSLOG_FILE_SIZE_LIMIT cfg then w
         else if malloc_fault e then w
         else rotate_files log_file data w).
Proof.
  intros Ho Hf. unfold log_rotate, bind, open, observed_size.
  rewrite Ho, Hf, fd_nonneg. unfold fstat, close. simpl.
  rewrite Nat2Z.id, lookup_insert_eq, Hf.
  destruct (fstat_fault e); simpl.
  all: rewrite open_close_fds, set_fds_twice, set_fds_same.
  all: case_match; [done|].
  all: unfold malloc; destruct (malloc_fault e); [done|].
  all: unfold access, rotate_files.
  all: destruct (files w !! sprintf_s_dot_0 log_file) eqn:Hb; simpl.
  all: unfold remove, rename, free, ret; simpl; rewrite ?Hb; simpl.
  all: rewrite ?lookup_delete_ne by apply backup_name_ne.
  all: by rewrite Hf.
Qed.

Lemma rotate_files_frame (log_file : string) (data : list Byte.byte) (w : world) :
  ∃ rot, Forall (λ ev, is_fs_event ev = true) rot ∧
    g_syslog_file_channel (rotate_files log_file data w) = g_syslog_file_channel w ∧
    lockcount (rotate_files log_file data w) = lockcount w ∧
    devs (rotate_files log_file data w) = devs w ∧
    trace (rotate_files log_file data w) = trace w ++ rot.
Proof.
  unfold rotate_files. destruct (files w !! sprintf_s_dot_0 log_file); simpl.
  - eexists [_; _]. rewrite <- app_assoc. by repeat constructor.
  - eexists [_]. by repeat constructor.
Qed.

(** [log_rotate] touches the file system only: the static pointer, the
    lock count and the device table are as before, and every event it
    emits is a remove or a rename. *)
Lemma log_rotate_frame (log_file : string) (w : world) :
  ∃ rot w', log_rotate cfg e log_file w = (tt, w') ∧
    Forall (λ ev, is_fs_event ev = true) rot ∧
    g_syslog_file_channel w' = g_syslog_file_channel w ∧
    lockcount w' = lockcount w ∧
    devs w' = devs w ∧
    trace w' = trace w ++ rot.
Proof.
  assert (Hid : ∃ rot w', (tt, w) = (tt, w') ∧
    Forall (λ ev, is_fs_event ev = true) rot ∧
    g_syslog_file_channel w' = g_syslog_file_channel w ∧
    lockcount w' = lockcount w ∧ devs w' = devs w ∧ trace w' = trace w ++ rot).
  { exists [], w. by rewrite app_nil_r. }
  destruct (open_fault e) eqn:Ho.
  { rewrite log_rotate_open_fails by auto. exact Hid. }
  destruct (files w !! log_file) as [data|] eqn:Hf.
  2: { rewrite log_rotate_open_fails by auto. exact Hid. }
  rewrite (log_rotate_opened _ data) by done.
  repeat case_match; try exact Hid.
  destruct (rotate_files_frame log_file data w) as (rot & ? & ? & ? & ? & ?).
  by exists rot, (rotate_files log_file data w).
Qed.

End LogRotate.

Section FileChannel.

Variable cfg : config.
Variable e : env.

(** One call of [syslog_file_channel], in closed form. *)
Lemma syslog_file_channel_run (devpath : string) (w : world) :
  ∃ rot w',
    syslog_file_channel cfg e devpath w = (final_g cfg e, w') ∧
    Forall (λ ev, is_fs_event ev = true) rot ∧
    g_syslog_file_channel w' = final_g cfg e ∧
    lockcount w' = lockcount w ∧
    devs w' = final_devs cfg e devpath w ∧
    trace w' =
      trace w ++ channel_events cfg e (g_syslog_file_channel w) devpath rot.
Proof.
  unfold syslog_file_channel, bind.
  unfold sched_lock, load_g at 1.
  unfold final_devs, final_g, channel_events, bind_events.
  destruct (g_syslog_file_channel w) as [h0|] eqn:Hg0.
  all: cbn [g_syslog_file_channel set_lockcount emit]; rewrite Hg0.
  1: unfold syslog_dev_uninitialize at 1.
  2: unfold ret at 1.
  1: set (w1 := set_devs _ _).
  2: set (w1 := set_lockcount _ _).
  all: assert (∃ rot w3, Forall (λ ev, is_fs_event ev = true) rot ∧
         (CONFIG_SYSLOG_FILE_ROTATE cfg = true →
            log_rotate cfg e devpath w1 = (tt, w3)) ∧
         (CONFIG_SYSLOG_FILE_ROTATE cfg = false → w3 = w1) ∧
         g_syslog_file_channel w3 = g_syslog_file_channel w1 ∧
         lockcount w3 = lockcount w1 ∧ devs w3 = devs w1 ∧
         trace w3 = trace w1 ++ rot)
       as (rot & w3 & Hfs & Hon & Hoff & Hg & Hl & Hd & Ht)
       by (destruct (CONFIG_SYSLOG_FILE_ROTATE cfg);
           [ destruct (log_rotate_frame cfg e devpath w1)
               as (rot & w3 & ? & ? & ? & ? & ? & ?);
             by exists rot, w3
           | exists [], w1; by rewrite app_nil_r ]).
  all: destruct (CONFIG_SYSLOG_FILE_ROTATE cfg);
         [ rewrite Hon by done | unfold ret at 1; rewrite <- Hoff by done ].
  all: clear Hon Hoff; subst w1; simpl in Hg, Hl, Hd, Ht.
  all: unfold syslog_dev_initialize, store_g, load_g, syslog_channel,
         syslog_dev_uninitialize, sched_unlock, ret.
  all: destruct (dev_init_result e) as [h|]; simpl.
  all: try destruct (channel_ret e =? OK cfg); simpl.
  all: exists rot; eexists; (split; [reflexivity|]); simpl.
  all: rewrite ?Hg, ?Hl, ?Hd, ?Ht; simpl.
  all: repeat split; try done.
  all: rewrite <- ?app_assoc; simpl; try done.
Qed.

End FileChannel.

(** Events of the file system neither lock, nor write the static pointer,
    nor initialize a device. *)
Lemma fs_events_not_lock (rot : list event) :
  Forall (λ ev, is_fs_event ev = true) rot →
  Forall (λ ev, is_lock_event ev = false) rot.
Proof. intros H. eapply Forall_impl; [exact H|]. by intros []. Qed.

Lemma lock_discipline_fs (rot l : list event) (d : nat) :
  Forall (λ ev, is_fs_event ev = true) rot →
  lock_discipline d (rot ++ l) = lock_discipline d l.
Proof. induction 1 as [|ev rot Hev _ IH]; [done|]. by destruct ev. Qed.

Lemma replay_g_fs (rot l : list event) (g0 : option handle) :
  Forall (λ ev, is_fs_event ev = true) rot →
  replay_g g0 (rot ++ l) = replay_g g0 l.
Proof. induction 1 as [|ev rot Hev _ IH]; [done|]. by destruct ev. Qed.

Lemma dev_init_calls_fs (rot l : list event) :
  Forall (λ ev, is_fs_event ev = true) rot →
  dev_init_calls (rot ++ l) = dev_init_calls l.
Proof. induction 1 as [|ev rot Hev _ IH]; [done|]. by destruct ev. Qed.

Lemma bound_channels_fs (ok : Z) (rot l : list event) :
  Forall (λ ev, is_fs_event ev = true) rot →
  bound_channels ok (rot ++ l) = bound_channels ok l.
Proof. induction 1 as [|ev rot Hev _ IH]; [done|]. by destruct ev. Qed.

(** ** The claims *)

(** The two embeddings of [log_rotate] agree when remove and rename do
    not fail. *)
Lemma log_rotate_io_no_faults (cfg : config) (e : env) (log_file : string) :
  log_rotate_io cfg e fs_ok log_file = log_rotate cfg e log_file.
Proof. reflexivity. Qed.

(** C1: a log file whose size is at or above the limit is rotated when
    open and fstat succeed, the backup name is allocated and the rename
    call succeeds: remove is called on a backup already at the sibling
    name, then the log is renamed; afterwards the original path is free,
    the path with ".0" appended holds the prior contents of the log, no
    other file has changed, and the old backup is gone. *)
Theorem log_rotate_io_rotates_at_limit (cfg : config) (e : env) (fe : fs_env)
    (w : world) (log_file : string) (data : list Byte.byte) :
  files w !! log_file = Some data →
  open_fault e = false → fstat_fault e = false → malloc_fault e = false →
  rename_fault fe = false →
  CONFIG_SYSLOG_FILE_SIZE_LIMIT cfg ≤ Z.of_nat (length data) →
  let backup := log_file +:+ ".0" in
  let w' := exec (log_rotate_io cfg e fe log_file) w in
  files w' !! log_file = None ∧
  files w' !! backup = Some data ∧
  (∀ p, p ≠ log_file → p ≠ backup → files w' !! p = files w !! p) ∧
  trace w' = trace w ++
    match files w !! backup with
    | Some _ => [EvRemove backup; EvRename log_file backup]
    | None => [EvRename log_file backup]
    end.
Proof.
  intros Hf Ho Hs Hm Hr Hsz backup w'. subst w'.
  assert (Hne : backup ≠ log_file) by apply (backup_name_ne log_file).
  unfold exec, log_rotate_io, bind, open.
  rewrite Ho, Hf, fd_nonneg. unfold fstat, close. simpl.
  rewrite Nat2Z.id, lookup_insert_eq, Hf, Hs. simpl.
  rewrite open_close_fds, set_fds_twice, set_fds_same.
  replace (_ <? _) with false by (symmetry; apply Z.ltb_ge; lia).
  unfold malloc. rewrite Hm. unfold access, sprintf_s_dot_0. fold backup.
  destruct (files w !! backup) eqn:Hb; simpl.
  all: unfold remove_io, rename_io, remove, rename, free, ret; rewrite Hr.
  all: destruct (remove_fault fe); simpl; rewrite ?Hb; simpl.
  all: rewrite ?lookup_delete_ne by done; rewrite Hf; simpl.
  all: rewrite lookup_insert_ne, lookup_delete_eq, lookup_insert_eq by done.
  all: repeat split; rewrite <- ?app_assoc; try done.
  all: intros p H1 H2; by rewrite lookup_insert_ne, ?lookup_delete_ne.
Qed.

(** C1, as the claim has it, fails: an oversized log stays at its path
    when malloc returns NULL, when open fails, when fstat fails and the
    uninitialised size reads below the limit, and when rename fails (the
    old backup is then gone all the same). *)
Lemma log_rotate_at_limit_not_always_rotated :
  let w := boot_world big_log_fs in
  files w !! "/log" = Some five_bytes ∧
  CONFIG_SYSLOG_FILE_SIZE_LIMIT small_cfg ≤ Z.of_nat (length five_bytes) ∧
  files (exec (log_rotate small_cfg env_no_memory "/log") w) !! "/log"
    = Some five_bytes ∧
  files (exec (log_rotate small_cfg env_open_fails "/log") w) !! "/log"
    = Some five_bytes ∧
  files (exec (log_rotate small_cfg env_fstat_fails_low "/log") w) !! "/log"
    = Some five_bytes ∧
  files (exec (log_rotate_io small_cfg (env_ok 7) fs_rename_fails "/log") w)
    !! "/log" = Some five_bytes ∧
  files (exec (log_rotate_io small_cfg (env_ok 7) fs_rename_fails "/log") w)
    !! "/log.0" = None.
Proof. vm_compute. repeat split; discriminate. Qed.

(** When fstat succeeds and the size it reports is strictly below the
    limit, [log_rotate] changes nothing: the world after the call is the
    world before it, so the file is at its path with its contents and no
    backup was created, deleted or overwritten. *)
Theorem log_rotate_below_limit_untouched (cfg : config) (e : env) (w : world)
    (log_file : string) (data : list Byte.byte) :
  files w !! log_file = Some data →
  fstat_fault e = false →
  Z.of_nat (length data) < CONFIG_SYSLOG_FILE_SIZE_LIMIT cfg →
  let w' := exec (log_rotate cfg e log_file) w in
  w' = w ∧ files w' = files w ∧ files w' !! log_file = Some data ∧
  trace w' = trace w.
Proof.
  intros Hf Hs Hsz w'.
  assert (Hw : w' = w); [|by rewrite Hw].
  subst w'. unfold exec.
  destruct (open_fault e) eqn:Ho.
  { by rewrite log_rotate_open_fails by auto. }
  rewrite (log_rotate_opened cfg e log_file data) by done.
  unfold observed_size. rewrite Hs.
  by replace (_ <? _) with true by (symmetry; apply Z.ltb_lt; lia).
Qed.

(** C2: a log file whose size is strictly below the limit is not always
    left alone, since the result of fstat is not tested.  With a one-byte
    log and a limit of four bytes, when fstat fails and the uninitialised
    [f_stat.st_size] reads as 4096, the file system is modified: the log
    leaves its path and a backup is created. *)
Theorem log_rotate_below_limit_rotated_on_fstat_failure :
  let w := boot_world small_log_fs in
  let w' := exec (log_rotate small_cfg env_fstat_fails "/log") w in
  files w !! "/log" = Some [Byte.x21] ∧
  Z.of_nat (length [Byte.x21]) < CONFIG_SYSLOG_FILE_SIZE_LIMIT small_cfg ∧
  files w !! "/log.0" = None ∧
  files w' ≠ files w ∧
  files w' !! "/log" = None ∧
  files w' !! "/log.0" = Some [Byte.x21].
Proof.
  intros w w'.
  assert (H1 : files w' !! "/log" = None) by (by vm_compute).
  assert (H2 : files w !! "/log" = Some [Byte.x21]) by (by vm_compute).
  repeat split; try (by vm_compute).
  all: intros Heq; rewrite Heq, H2 in H1; discriminate.
Qed.

(** When open fails, because the file is missing or for another reason,
    [log_rotate] returns and the world is as before. *)
Lemma log_rotate_open_failure_skips (cfg : config) (e : env) (w : world)
    (log_file : string) :
  open_fault e = true ∨ files w !! log_file = None →
  exec (log_rotate cfg e log_file) w = w.
Proof. intros H. unfold exec. by rewrite log_rotate_open_fails. Qed.

(** C3: a failing fstat does not make [log_rotate] return, since the
    result of fstat is not tested.  With a one-byte log and a limit of
    four bytes, when fstat fails and the uninitialised [f_stat.st_size]
    reads as 4096, the log is renamed to its backup name although its
    size could not be read. *)
Theorem log_rotate_fstat_failure_rotates :
  let w := boot_world small_log_fs in
  let w' := exec (log_rotate small_cfg env_fstat_fails "/log") w in
  fstat_fault env_fstat_fails = true ∧
  files w !! "/log" = Some [Byte.x21] ∧
  files w' !! "/log" = None ∧
  files w' !! "/log.0" = Some [Byte.x21] ∧
  trace w' = [EvRename "/log" "/log.0"].
Proof. vm_compute. done. Qed.

(** C9: when malloc returns NULL for the backup name, [log_rotate]
    returns with the world as it was: no file is touched, an oversized log
    stays at its path, and nothing is reported (the function has no
    result). *)
Theorem log_rotate_malloc_failure_skips (cfg : config) (e : env) (w : world)
    (log_file : string) :
  malloc_fault e = true →
  let w' := exec (log_rotate cfg e log_file) w in
  w' = w ∧
  eval (log_rotate cfg e log_file) w = tt ∧
  (∀ data, files w !! log_file = Some data → files w' !! log_file = Some data).
Proof.
  intros Hm w'.
  assert (Hw : w' = w); [|rewrite Hw; repeat split; by try destruct (eval _ _)].
  subst w'. unfold exec.
  destruct (open_fault e) eqn:Ho.
  { by rewrite log_rotate_open_fails by auto. }
  destruct (files w !! log_file) as [data|] eqn:Hf.
  2: { by rewrite log_rotate_open_fails by auto. }
  rewrite (log_rotate_opened cfg e log_file data) by done.
  rewrite Hm. by case_match.
Qed.

(** C4: when a prior handle [h] is recorded in [g_syslog_file_channel],
    the call passes it to syslog_dev_uninitialize right after taking the
    lock: before syslog_dev_initialize creates the new handle and before
    the pointer is written, with nothing but the file operations of the
    rotation in between.  The prior device is gone from the device table
    afterwards, unless the new device was given the same address. *)
Theorem syslog_file_channel_tears_down_prior (cfg : config) (e : env)
    (devpath : string) (w : world) (h : handle) :
  g_syslog_file_channel w = Some h →
  let w' := exec (syslog_file_channel cfg e devpath) w in
  ∃ rot post,
    Forall (λ ev, is_fs_event ev = true) rot ∧
    trace w' = trace w ++ [EvSchedLock; EvDevUninit h] ++ rot ++
      EvDevInit devpath (OPEN_FLAGS cfg) (OPEN_MODE cfg) (dev_init_result e) ::
      EvStore (dev_init_result e) :: post ∧
    (dev_init_result e ≠ Some h → devs w' !! h = None).
Proof.
  intros Hg w'. subst w'. unfold exec.
  destruct (syslog_file_channel_run cfg e devpath w)
    as (rot & w' & -> & Hfs & _ & _ & Hd & Ht).
  cbn [snd]. exists rot, (bind_events cfg e ++ [EvSchedUnlock]).
  split; [done|]. split.
  - rewrite Ht, Hg. reflexivity.
  - intros Hne. rewrite Hd. unfold final_devs. rewrite Hg.
    destruct (dev_init_result e) as [h'|]; [|apply lookup_delete_eq].
    assert (h' ≠ h) by congruence.
    case_match.
    + by rewrite lookup_insert_ne, lookup_delete_eq.
    + by rewrite lookup_delete_ne, lookup_insert_ne, lookup_delete_eq.
Qed.

(** When syslog_dev_initialize returns NULL, or syslog_channel does not
    return OK, the call returns NULL and leaves NULL in
    [g_syslog_file_channel]; a handle created by the call has been passed
    to syslog_dev_uninitialize and is not in the device table, and
    syslog_channel has accepted no handle during the call; the call ends
    with the events of the failing path. *)
Theorem syslog_file_channel_failure_leaves_null (cfg : config) (e : env)
    (devpath : string) (w : world) :
  dev_init_result e = None ∨ channel_ret e ≠ OK cfg →
  let r := eval (syslog_file_channel cfg e devpath) w in
  let w' := exec (syslog_file_channel cfg e devpath) w in
  r = None ∧
  g_syslog_file_channel w' = None ∧
  (∀ h, dev_init_result e = Some h → devs w' !! h = None) ∧
  ∃ l pre,
    trace w' = trace w ++ l ∧
    bound_channels (OK cfg) l = [] ∧
    l = pre ++
      match dev_init_result e with
      | None =>
          [EvDevInit devpath (OPEN_FLAGS cfg) (OPEN_MODE cfg) None;
           EvStore None; EvSchedUnlock]
      | Some h =>
          [EvDevInit devpath (OPEN_FLAGS cfg) (OPEN_MODE cfg) (Some h);
           EvStore (Some h); EvChannel h (channel_ret e);
           EvDevUninit h; EvStore None; EvSchedUnlock]
      end.
Proof.
  intros Hfail r w'. subst r w'. unfold eval, exec.
  destruct (syslog_file_channel_run cfg e devpath w)
    as (rot & w' & -> & Hfs & Hg & _ & Hd & Ht).
  cbn [fst snd].
  assert (Hrc : ∀ h, dev_init_result e = Some h →
                     (channel_ret e =? OK cfg) = false).
  { intros h Hh. destruct Hfail as [?|Hrc]; [congruence|].
    by apply Z.eqb_neq. }
  assert (Hnull : final_g cfg e = None).
  { unfold final_g. destruct (dev_init_result e) as [h|]; [|done].
    by rewrite (Hrc h). }
  split; [done|]. split; [by rewrite Hg|]. split.
  - intros h Hh. rewrite Hd. unfold final_devs. rewrite Hh, (Hrc h) by done.
    apply lookup_delete_eq.
  - eexists.
    exists (EvSchedLock ::
            match g_syslog_file_channel w with
            | Some h => [EvDevUninit h]
            | None => []
            end ++ rot).
    split; [exact Ht|]. unfold channel_events, bind_events. split.
    + cbn [bound_channels].
      destruct (g_syslog_file_channel w); cbn [app bound_channels].
      all: rewrite bound_channels_fs by done; cbn [bound_channels].
      all: destruct (dev_init_result e) as [h|]; [|done].
      all: by rewrite (Hrc h); cbn; rewrite ?(Hrc h).
    + destruct (dev_init_result e) as [h|].
      * rewrite (Hrc h) by done. simpl. by rewrite <- app_assoc.
      * simpl. by rewrite <- app_assoc.
Qed.


(** C6: on every path the call emits exactly one sched_lock, as its
    first event, and exactly one sched_unlock, as its last event, with no
    lock call in between; the lock count on return is the lock count on
    entry. *)
Theorem syslog_file_channel_lock_balanced (cfg : config) (e : env)
    (devpath : string) (w : world) :
  let w' := exec (syslog_file_channel cfg e devpath) w in
  lockcount w' = lockcount w ∧
  ∃ mid, trace w' = trace w ++ EvSchedLock :: mid ++ [EvSchedUnlock] ∧
         Forall (λ ev, is_lock_event ev = false) mid.
Proof.
  intros w'. subst w'. unfold exec.
  destruct (syslog_file_channel_run cfg e devpath w)
    as (rot & w' & -> & Hfs & _ & Hl & _ & Ht).
  cbn [snd]. split; [done|].
  exists (match g_syslog_file_channel w with
          | Some h => [EvDevUninit h]
          | None => []
          end ++ rot ++
          EvDevInit devpath (OPEN_FLAGS cfg) (OPEN_MODE cfg) (dev_init_result e) ::
          EvStore (dev_init_result e) :: bind_events cfg e).
  split.
  - rewrite Ht. unfold channel_events. f_equal. f_equal.
    by rewrite <- !app_assoc.
  - apply Forall_app. split; [by case_match; repeat constructor|].
    apply Forall_app. split; [by apply fs_events_not_lock|].
    unfold bind_events. repeat case_match; by repeat constructor.
Qed.

(** C7: every call makes exactly one call to syslog_dev_initialize, with
    the path it was given, the flags O_WRONLY | O_CREAT | O_APPEND and the
    mode S_IRUSR | S_IWUSR | S_IRGRP | S_IROTH: a bit is set in the flags
    (in the mode) passed exactly when one of the three flags (of the four
    permission bits) has it. *)
Theorem syslog_file_channel_open_flags_mode (cfg : config) (e : env)
    (devpath : string) (w : world) :
  let w' := exec (syslog_file_channel cfg e devpath) w in
  (∃ l, trace w' = trace w ++ l ∧
     dev_init_calls l =
       [(devpath,
         Z.lor (Z.lor (O_WRONLY cfg) (O_CREAT cfg)) (O_APPEND cfg),
         Z.lor (Z.lor (Z.lor (S_IRUSR cfg) (S_IWUSR cfg)) (S_IRGRP cfg))
           (S_IROTH cfg))]) ∧
  (∀ i, Z.testbit (OPEN_FLAGS cfg) i =
          Z.testbit (O_WRONLY cfg) i || Z.testbit (O_CREAT cfg) i
          || Z.testbit (O_APPEND cfg) i) ∧
  (∀ i, Z.testbit (OPEN_MODE cfg) i =
          Z.testbit (S_IRUSR cfg) i || Z.testbit (S_IWUSR cfg) i
          || Z.testbit (S_IRGRP cfg) i || Z.testbit (S_IROTH cfg) i).
Proof.
  intros w'. subst w'. unfold exec.
  destruct (syslog_file_channel_run cfg e devpath w)
    as (rot & w' & -> & Hfs & _ & _ & _ & Ht).
  cbn [snd]. split; [|split].
  - eexists. split; [exact Ht|].
    unfold channel_events. cbn [dev_init_calls].
    assert (Hpre : ∀ l, dev_init_calls
              (match g_syslog_file_channel w with
               | Some h => [EvDevUninit h]
               | None => []
               end ++ l) = dev_init_calls l) by (intros; by case_match).
    rewrite Hpre, dev_init_calls_fs by done. cbn [dev_init_calls].
    assert (Hpost : dev_init_calls (bind_events cfg e ++ [EvSchedUnlock]) = []).
    { unfold bind_events. by repeat case_match. }
    rewrite Hpost. unfold OPEN_FLAGS. do 2 f_equal.
    unfold OPEN_MODE. apply Z.bits_inj. intros i. rewrite !Z.lor_spec.
    by repeat match goal with |- context [Z.testbit ?a ?b] =>
      destruct (Z.testbit a b) end.
  - intros i. unfold OPEN_FLAGS. by rewrite !Z.lor_spec.
  - intros i. unfold OPEN_MODE. rewrite !Z.lor_spec.
    by repeat match goal with |- context [Z.testbit ?a ?b] =>
      destruct (Z.testbit a b) end.
Qed.

(** C8: in the events of a call, the lock calls are well bracketed from
    nesting zero back to nesting zero and every write to
    [g_syslog_file_channel] comes at a nesting of at least one, between
    the sched_lock and the sched_unlock of the call; the pointer after the
    call is what these writes left.  [log_rotate], the other function of
    the file, does not write the pointer. *)
Theorem g_syslog_file_channel_written_under_lock (cfg : config) (e : env)
    (devpath : string) (w : world) :
  let w' := exec (syslog_file_channel cfg e devpath) w in
  (∃ l, trace w' = trace w ++ l ∧
        lock_discipline 0 l = Some 0%nat ∧
        g_syslog_file_channel w' = replay_g (g_syslog_file_channel w) l) ∧
  (∀ log_file w0,
     let w1 := exec (log_rotate cfg e log_file) w0 in
     g_syslog_file_channel w1 = g_syslog_file_channel w0 ∧
     ∃ rot, trace w1 = trace w0 ++ rot ∧
            Forall (λ ev, is_fs_event ev = true) rot).
Proof.
  intros w'. subst w'. unfold exec. split.
  - destruct (syslog_file_channel_run cfg e devpath w)
      as (rot & w' & -> & Hfs & Hg & _ & _ & Ht).
    cbn [snd]. eexists. split; [exact Ht|].
    unfold channel_events. cbn [lock_discipline replay_g]. split.
    + destruct (g_syslog_file_channel w); cbn [app lock_discipline].
      all: rewrite lock_discipline_fs by done; cbn [lock_discipline].
      all: unfold bind_events; by repeat case_match.
    + rewrite Hg. unfold final_g.
      destruct (g_syslog_file_channel w); cbn [app replay_g].
      all: rewrite replay_g_fs by done; cbn [replay_g].
      all: unfold bind_events; by repeat case_match.
  - intros log_file w0.
    destruct (log_rotate_frame cfg e log_file w0)
      as (rot & w1 & -> & Hfs & Hg & _ & _ & Ht).
    cbn [snd]. split; [done|]. by exists rot.
Qed.

(** C10: the pointer returned is the value of [g_syslog_file_channel]
    on return, and that value is NULL or the handle that this call's
    syslog_dev_initialize returned and this call's syslog_channel accepted
    with OK: the call ends with that initialization, the write of the
    pointer, the binding and the unlock, so the handle was not
    uninitialized since, and it is in the device table for the path. *)
Theorem syslog_file_channel_returns_global (cfg : config) (e : env)
    (devpath : string) (w : world) :
  let r := eval (syslog_file_channel cfg e devpath) w in
  let w' := exec (syslog_file_channel cfg e devpath) w in
  r = g_syslog_file_channel w' ∧
  (g_syslog_file_channel w' = None ∨
   ∃ h, g_syslog_file_channel w' = Some h ∧
        dev_init_result e = Some h ∧
        channel_ret e = OK cfg ∧
        devs w' !! h = Some devpath ∧
        ∃ pre, trace w' = trace w ++ pre ++
          [EvDevInit devpath (OPEN_FLAGS cfg) (OPEN_MODE cfg) (Some h);
           EvStore (Some h); EvChannel h (OK cfg); EvSchedUnlock]).
Proof.
  intros r w'. subst r w'. unfold eval, exec.
  destruct (syslog_file_channel_run cfg e devpath w)
    as (rot & w' & -> & Hfs & Hg & _ & Hd & Ht).
  cbn [fst snd]. split; [done|].
  rewrite Hg. unfold final_g.
  destruct (dev_init_result e) as [h|] eqn:Hr; [|by left].
  destruct (channel_ret e =? OK cfg) eqn:Hrc; [|by left].
  apply Z.eqb_eq in Hrc. right. exists h. repeat split; try done.
  - rewrite Hd. unfold final_devs. rewrite Hr, Hrc, Z.eqb_refl.
    apply lookup_insert_eq.
  - exists (EvSchedLock ::
            match g_syslog_file_channel w with
            | Some h => [EvDevUninit h]
            | None => []
            end ++ rot).
    rewrite Ht. unfold channel_events, bind_events.
    rewrite Hr, Hrc, Z.eqb_refl. simpl. by rewrite <- app_assoc.
Qed.

(** ** The claims at sample inputs *)

(** C1 at a five-byte log with an older backup and a limit of four
    bytes, with a failing remove and a rename that succeeds. *)
Lemma log_rotate_io_rotates_at_limit_witness :
  files (boot_world big_log_fs) !! "/log" = Some five_bytes ∧
  CONFIG_SYSLOG_FILE_SIZE_LIMIT small_cfg ≤ Z.of_nat (length five_bytes) ∧
  rename_fault fs_remove_fails = false ∧
  let w' := exec (log_rotate_io small_cfg (env_ok 7) fs_remove_fails "/log")
              (boot_world big_log_fs) in
  files w' !! "/log" = None ∧
  files w' !! "/log.0" = Some five_bytes ∧
  trace w' = [EvRemove "/log.0"; EvRename "/log" "/log.0"].
Proof.
  split; [reflexivity|]. split; [vm_compute; discriminate|].
  split; [reflexivity|].
  assert (Hsz : CONFIG_SYSLOG_FILE_SIZE_LIMIT small_cfg
                 ≤ Z.of_nat (length five_bytes)) by (vm_compute; discriminate).
  destruct (log_rotate_io_rotates_at_limit small_cfg (env_ok 7) fs_remove_fails
              (boot_world big_log_fs) "/log" five_bytes
              eq_refl eq_refl eq_refl eq_refl eq_refl Hsz)
    as (H1 & H2 & _ & H4).
  split; [exact H1|]. split; [exact H2|exact H4].
Defined.

(** A one-byte log whose fstat succeeds, with a limit of four bytes. *)
Lemma log_rotate_below_limit_untouched_witness :
  files (boot_world small_log_fs) !! "/log" = Some [Byte.x21] ∧
  Z.of_nat (length [Byte.x21]) < CONFIG_SYSLOG_FILE_SIZE_LIMIT small_cfg ∧
  exec (log_rotate small_cfg (env_ok 7) "/log") (boot_world small_log_fs)
    = boot_world small_log_fs.
Proof.
  split; [reflexivity|]. split; [reflexivity|].
  apply (log_rotate_below_limit_untouched small_cfg (env_ok 7)
           (boot_world small_log_fs) "/log" [Byte.x21]); reflexivity.
Defined.

(** C9 at a five-byte log, a limit of four bytes and no memory. *)
Lemma log_rotate_malloc_failure_skips_witness :
  malloc_fault env_no_memory = true ∧
  exec (log_rotate small_cfg env_no_memory "/log") (boot_world big_log_fs)
    = boot_world big_log_fs.
Proof.
  split; [reflexivity|].
  apply (log_rotate_malloc_failure_skips small_cfg env_no_memory
           (boot_world big_log_fs) "/log"); reflexivity.
Defined.

(** C4 at the second of two calls: the first call installed handle 7,
    the second call uninitializes it before it creates handle 9. *)
Lemma syslog_file_channel_tears_down_prior_witness :
  let w1 := exec (syslog_file_channel small_cfg (env_ok 7) "/log")
              (boot_world small_log_fs) in
  let w2 := exec (syslog_file_channel small_cfg (env_ok 9) "/log") w1 in
  g_syslog_file_channel w1 = Some 7%positive ∧
  devs w2 !! 7%positive = None ∧
  ∃ rot post,
    trace w2 = trace w1 ++ [EvSchedLock; EvDevUninit 7] ++ rot ++
      EvDevInit "/log" (OPEN_FLAGS small_cfg) (OPEN_MODE small_cfg) (Some 9%positive) ::
      EvStore (Some 9%positive) :: post.
Proof.
  intros w1 w2. split; [reflexivity|].
  destruct (syslog_file_channel_tears_down_prior small_cfg (env_ok 9) "/log"
              w1 7%positive)
    as (rot & post & _ & Ht & Hd); [reflexivity|].
  split; [apply Hd; discriminate|].
  exists rot, post. exact Ht.
Defined.

(** A call whose device is initialized and whose binding fails with
    -EINVAL. *)
Lemma syslog_file_channel_failure_leaves_null_witness :
  channel_ret env_bind_fails ≠ OK small_cfg ∧
  let w := boot_world small_log_fs in
  eval (syslog_file_channel small_cfg env_bind_fails "/log") w = None ∧
  g_syslog_file_channel
    (exec (syslog_file_channel small_cfg env_bind_fails "/log") w) = None ∧
  devs (exec (syslog_file_channel small_cfg env_bind_fails "/log") w)
    !! 7%positive = None.
Proof.
  split; [vm_compute; discriminate|].
  intros w.
  destruct (syslog_file_channel_failure_leaves_null small_cfg env_bind_fails
              "/log" w)
    as (Hr & Hg & Hd & _); [right; vm_compute; discriminate|].
  split; [exact Hr|]. split; [exact Hg|]. apply Hd. reflexivity.
Defined.

(** ** Runs of the model *)

(** A first call on an oversized log: the log is rotated under the lock,
    the file is opened with flags 026 and mode 0644, and the new handle is
    bound. *)
Example first_call_rotates_and_binds :
  let w' := exec (syslog_file_channel small_cfg (env_ok 7) "/log")
              (boot_world big_log_fs) in
  trace w' =
    [EvSchedLock; EvRemove "/log.0"; EvRename "/log" "/log.0";
     EvDevInit "/log" 22 420 (Some 7%positive); EvStore (Some 7%positive);
     EvChannel 7 0; EvSchedUnlock] ∧
  g_syslog_file_channel w' = Some 7%positive ∧
  files w' !! "/log" = Some [] ∧
  files w' !! "/log.0" = Some five_bytes ∧
  lockcount w' = 0%nat.
Proof. vm_compute. done. Qed.

(** A call whose binding fails: the new handle is uninitialized and the
    pointer is NULL again before the unlock. *)
Example failed_binding_run :
  let w' := exec (syslog_file_channel small_cfg env_bind_fails "/log")
              (boot_world small_log_fs) in
  trace w' =
    [EvSchedLock;
     EvDevInit "/log" 22 420 (Some 7%positive); EvStore (Some 7%positive);
     EvChannel 7 (-22); EvDevUninit 7; EvStore None; EvSchedUnlock] ∧
  g_syslog_file_channel w' = None ∧
  devs w' = ∅.
Proof. vm_compute. done. Qed.

(** ** Further properties of [log_rotate] *)

(** The files after a rotation: the log has moved onto the backup name. *)
Lemma rotate_files_files (log_file : string) (data : list Byte.byte) (w : world) :
  files (rotate_files log_file data w) =
    <[sprintf_s_dot_0 log_file := data]> (delete log_file (files w)).
Proof.
  unfold rotate_files.
  destruct (files w !! sprintf_s_dot_0 log_file); [|done]. simpl.
  by rewrite (delete_delete (files w)), insert_delete_eq.
Qed.

Lemma rotate_files_fds (log_file : string) (data : list Byte.byte) (w : world) :
  fds (rotate_files log_file data w) = fds w.
Proof. unfold rotate_files. by case_match. Qed.

(** Either nothing happens, or the file was opened, its observed size
    reached the limit, the name was allocated, and the log is rotated. *)
Lemma log_rotate_cases (cfg : config) (e : env) (log_file : string) (w : world) :
  exec (log_rotate cfg e log_file) w = w ∨
  ∃ data, files w !! log_file = Some data ∧
          open_fault e = false ∧ malloc_fault e = false ∧
          CONFIG_SYSLOG_FILE_SIZE_LIMIT cfg ≤ observed_size e data ∧
          exec (log_rotate cfg e log_file) w = rotate_files log_file data w.
Proof.
  unfold exec.
  destruct (open_fault e) eqn:Ho.
  { left. by rewrite log_rotate_open_fails by auto. }
  destruct (files w !! log_file) as [data|] eqn:Hf.
  2: { left. by rewrite log_rotate_open_fails by auto. }
  rewrite (log_rotate_opened cfg e log_file data) by done. cbn [snd].
  destruct (_ <? _) eqn:Hsz; [by left|].
  destruct (malloc_fault e) eqn:Hm; [by left|].
  right. exists data. apply Z.ltb_ge in Hsz. done.
Qed.

(** X1: when open fails, because the file is missing or for another
    reason, [log_rotate] returns at once: nothing is stat-ed, allocated,
    removed or renamed and the world is as before. *)
Theorem log_rotate_skips_when_open_fails (cfg : config) (e : env) (w : world)
    (log_file : string) :
  open_fault e = true ∨ files w !! log_file = None →
  let w' := exec (log_rotate cfg e log_file) w in
  w' = w ∧ trace w' = trace w ∧ files w' = files w.
Proof.
  intros H w'. assert (Hw : w' = w); [|by rewrite Hw].
  subst w'. unfold exec. by rewrite log_rotate_open_fails.
Qed.

(** X2: whatever the outcome of open, fstat and malloc, [log_rotate]
    touches no path but the log and its backup name. *)
Theorem log_rotate_touches_two_paths_only (cfg : config) (e : env) (w : world)
    (log_file p : string) :
  let w' := exec (log_rotate cfg e log_file) w in
  p = log_file ∨ p = log_file +:+ ".0" ∨ files w' !! p = files w !! p.
Proof.
  intros w'. subst w'.
  destruct (decide (p = log_file)) as [|H1]; [by left|].
  destruct (decide (p = log_file +:+ ".0")) as [|H2]; [by right; left|].
  right; right.
  destruct (log_rotate_cases cfg e log_file w) as [->|(data & _ & _ & _ & _ & ->)];
    [done|].
  rewrite rotate_files_files. unfold sprintf_s_dot_0.
  by rewrite lookup_insert_ne, lookup_delete_ne.
Qed.

(** X3: [log_rotate] never loses the log: the contents found at the log
    path are, after the call, still there or at the backup name, on every
    path through the function (also when fstat fails). *)
Theorem log_rotate_keeps_contents (cfg : config) (e : env) (w : world)
    (log_file : string) (data : list Byte.byte) :
  files w !! log_file = Some data →
  let w' := exec (log_rotate cfg e log_file) w in
  files w' !! log_file = Some data ∨
  (files w' !! log_file = None ∧ files w' !! (log_file +:+ ".0") = Some data).
Proof.
  intros Hf w'. subst w'.
  destruct (log_rotate_cases cfg e log_file w)
    as [->|(data' & Hf' & _ & _ & _ & ->)]; [by left|].
  right. rewrite rotate_files_files. unfold sprintf_s_dot_0.
  assert (data' = data) as -> by congruence.
  assert (Hne : log_file +:+ ".0" ≠ log_file) by apply (backup_name_ne log_file).
  by rewrite lookup_insert_ne, lookup_delete_eq, lookup_insert_eq.
Qed.

(** X4: the descriptor opened by [log_rotate] is closed before every
    later return: the table of open descriptors after the call is the one
    before it. *)
Theorem log_rotate_leaks_no_descriptor (cfg : config) (e : env) (w : world)
    (log_file : string) :
  fds (exec (log_rotate cfg e log_file) w) = fds w.
Proof.
  destruct (log_rotate_cases cfg e log_file w) as [->|(data & _ & _ & _ & _ & ->)];
    [done|apply rotate_files_fds].
Qed.


(** X6: [log_rotate] changes the world exactly when the log exists, open
    succeeds, the size it observed (the one fstat stored, or the
    uninitialised one when fstat failed) is at or above the limit, and
    malloc succeeds. *)
Theorem log_rotate_changes_iff (cfg : config) (e : env) (w : world)
    (log_file : string) :
  exec (log_rotate cfg e log_file) w ≠ w ↔
  ∃ data, files w !! log_file = Some data ∧
          open_fault e = false ∧ malloc_fault e = false ∧
          CONFIG_SYSLOG_FILE_SIZE_LIMIT cfg ≤ observed_size e data.
Proof.
  split.
  - intros Hne.
    destruct (log_rotate_cases cfg e log_file w)
      as [?|(data & ? & ? & ? & ? & _)]; [done|by exists data].
  - intros (data & Hf & Ho & Hm & Hsz) Heq.
    unfold exec in Heq.
    rewrite (log_rotate_opened cfg e log_file data), Hm in Heq by done.
    replace (_ <? _) with false in Heq by (symmetry; apply Z.ltb_ge; lia).
    cbn [snd] in Heq. apply (f_equal files) in Heq.
    rewrite rotate_files_files in Heq.
    apply (f_equal (λ m, m !! log_file)) in Heq. cbn beta in Heq.
    rewrite lookup_insert_ne, lookup_delete_eq, Hf in Heq
      by apply backup_name_ne.
    done.
Qed.

(** ** Further properties of [syslog_file_channel] *)

(** The stages of a call: the world [w1] in which the rotation step
    starts has the files of the entry world, the rotation step leads to
    [w3], and the rest of the call changes the files only by creating the
    file at [devpath]. *)
Lemma syslog_file_channel_stages (cfg : config) (e : env) (devpath : string)
    (w : world) :
  ∃ w1 w3 rot w',
    syslog_file_channel cfg e devpath w = (final_g cfg e, w') ∧
    files w1 = files w ∧
    (CONFIG_SYSLOG_FILE_ROTATE cfg = true →
       log_rotate cfg e devpath w1 = (tt, w3)) ∧
    (CONFIG_SYSLOG_FILE_ROTATE cfg = false → w3 = w1) ∧
    trace w3 = trace w1 ++ rot ∧
    trace w' =
      trace w ++ channel_events cfg e (g_syslog_file_channel w) devpath rot ∧
    files w' =
      match dev_init_result e with
      | None => files w3
      | Some _ =>
          match files w3 !! devpath with
          | Some _ => files w3
          | None => <[devpath := []]> (files w3)
          end
      end.
Proof.
  unfold syslog_file_channel, bind.
  unfold sched_lock, load_g at 1.
  unfold channel_events, bind_events, final_g.
  destruct (g_syslog_file_channel w) as [h0|] eqn:Hg0.
  all: cbn [g_syslog_file_channel set_lockcount emit]; rewrite Hg0.
  1: unfold syslog_dev_uninitialize at 1.
  2: unfold ret at 1.
  1: set (w1 := set_devs _ _).
  2: set (w1 := set_lockcount _ _).
  all: assert (∃ rot w3,
         (CONFIG_SYSLOG_FILE_ROTATE cfg = true →
            log_rotate cfg e devpath w1 = (tt, w3)) ∧
         (CONFIG_SYSLOG_FILE_ROTATE cfg = false → w3 = w1) ∧
         trace w3 = trace w1 ++ rot)
       as (rot & w3 & Hon & Hoff & Ht)
       by (destruct (CONFIG_SYSLOG_FILE_ROTATE cfg);
           [ destruct (log_rotate_frame cfg e devpath w1)
               as (rot & w3 & ? & ? & ? & ? & ? & ?);
             by exists rot, w3
           | exists [], w1; by rewrite app_nil_r ]).
  all: exists w1, w3, rot.
  all: assert (Hstep :
         (if CONFIG_SYSLOG_FILE_ROTATE cfg
          then log_rotate cfg e devpath w1 = (tt, w3) else w3 = w1))
       by (destruct (CONFIG_SYSLOG_FILE_ROTATE cfg); auto).
  all: clear Hon Hoff.
  all: destruct (CONFIG_SYSLOG_FILE_ROTATE cfg);
         [ rewrite Hstep; clear Hstep
         | unfold ret at 1; subst w3;
           assert (rot = []) as ->
             by (rewrite <- (app_nil_r (trace w1)) in Ht at 1;
                 by apply app_inv_head in Ht);
           clear Ht ].
  all: unfold syslog_dev_initialize, store_g, load_g, syslog_channel,
         syslog_dev_uninitialize, sched_unlock, ret.
  all: destruct (dev_init_result e) as [h|]; simpl.
  all: try destruct (channel_ret e =? OK cfg); simpl.
  all: eexists; (split; [reflexivity|]); simpl.
  all: split; [done|]; split; [done|]; split; [done|].
  all: split; [first [exact Ht | by rewrite app_nil_r]|].
  all: subst w1; try (simpl in Ht; rewrite Ht); simpl.
  all: split; [|done].
  all: rewrite <- ?app_assoc; simpl; try done.
Qed.

(** X8: the call returns a handle exactly when syslog_dev_initialize
    returned it and syslog_channel returned OK; the result does not depend
    on the world the call starts in, on the pointer found, or on the
    rotation. *)
Theorem syslog_file_channel_result_iff (cfg : config) (e : env)
    (devpath : string) (w : world) (h : handle) :
  eval (syslog_file_channel cfg e devpath) w = Some h ↔
  dev_init_result e = Some h ∧ channel_ret e = OK cfg.
Proof.
  unfold eval.
  destruct (syslog_file_channel_run cfg e devpath w)
    as (rot & w' & -> & _). cbn [fst]. unfold final_g.
  destruct (dev_init_result e) as [h'|]; [|by split; [|intros []]].
  destruct (channel_ret e =? OK cfg) eqn:Hrc.
  - apply Z.eqb_eq in Hrc. split; [by intros [= ->]|by intros [[= ->] _]].
  - apply Z.eqb_neq in Hrc. split; [done|by intros []].
Qed.

Lemma owner_discipline_fs (rot l : list event) (held : option handle) :
  Forall (λ ev, is_fs_event ev = true) rot →
  owner_discipline held (rot ++ l) = owner_discipline held l.
Proof. induction 1 as [|ev rot Hev _ IH]; [done|]. by destruct ev. Qed.

Lemma owner_discipline_app (l1 l2 : list event) (held : option handle) :
  owner_discipline held (l1 ++ l2) =
    match owner_discipline held l1 with
    | Some held' => owner_discipline held' l2
    | None => None
    end.
Proof.
  revert held. induction l1 as [|ev l1 IH]; intros held; [done|].
  destruct ev; simpl; try apply IH.
  - destruct held as [h'|]; [|done]. by case_match.
  - by destruct held.
Qed.

Lemma lock_discipline_app (l1 l2 : list event) (d : nat) :
  lock_discipline d (l1 ++ l2) =
    match lock_discipline d l1 with
    | Some d' => lock_discipline d' l2
    | None => None
    end.
Proof.
  revert d. induction l1 as [|ev l1 IH]; intros d; [done|].
  destruct ev; simpl; try apply IH.
  all: by destruct d.
Qed.

(** The events of one call keep both disciplines. *)
Lemma call_disciplines (cfg : config) (e : env) (devpath : string) (w : world) :
  ∃ l, trace (exec (syslog_file_channel cfg e devpath) w) = trace w ++ l ∧
       owner_discipline (g_syslog_file_channel w) l =
         Some (g_syslog_file_channel (exec (syslog_file_channel cfg e devpath) w)) ∧
       lock_discipline 0 l = Some 0%nat ∧
       lockcount (exec (syslog_file_channel cfg e devpath) w) = lockcount w.
Proof.
  unfold exec.
  destruct (syslog_file_channel_run cfg e devpath w)
    as (rot & w' & -> & Hfs & Hg & Hl & _ & Ht).
  cbn [snd]. eexists. split; [exact Ht|].
  rewrite Hg. unfold channel_events, final_g, bind_events.
  cbn [owner_discipline lock_discipline].
  split; [|split; [|exact Hl]].
  - destruct (g_syslog_file_channel w); cbn [app owner_discipline].
    all: rewrite ?Pos.eqb_refl, owner_discipline_fs by done.
    all: cbn [owner_discipline].
    all: destruct (dev_init_result e) as [h|]; [|done].
    all: destruct (channel_ret e =? OK cfg); cbn [app owner_discipline]; [done|].
    all: by rewrite Pos.eqb_refl.
  - destruct (g_syslog_file_channel w); cbn [app lock_discipline].
    all: rewrite lock_discipline_fs by done; cbn [lock_discipline].
    all: by repeat case_match.
Qed.

(** X9: one call keeps the ownership discipline of the device handle:
    starting with the handle found in [g_syslog_file_channel], the call
    initializes a device only after it has uninitialized the one it held,
    uninitializes only the handle it holds, and ends holding exactly the
    handle it leaves in [g_syslog_file_channel]. *)
Theorem syslog_file_channel_owner_discipline (cfg : config) (e : env)
    (devpath : string) (w : world) :
  let w' := exec (syslog_file_channel cfg e devpath) w in
  ∃ l, trace w' = trace w ++ l ∧
       owner_discipline (g_syslog_file_channel w) l =
         Some (g_syslog_file_channel w').
Proof.
  intros w'. subst w'.
  destruct (call_disciplines cfg e devpath w) as (l & Ht & Ho & _).
  by exists l.
Qed.

(** X10: over any sequence of calls, whatever each call's path and
    outcomes, the whole trace keeps the ownership discipline (no handle
    is leaked, none is uninitialized twice or after it was dropped) and
    the lock discipline, the handle held at the end is the one in
    [g_syslog_file_channel], and the lock count is as at the start. *)
Theorem run_calls_discipline (cfg : config) (calls : list (env * string))
    (w : world) :
  let w' := run_calls cfg calls w in
  lockcount w' = lockcount w ∧
  ∃ l, trace w' = trace w ++ l ∧
       owner_discipline (g_syslog_file_channel w) l =
         Some (g_syslog_file_channel w') ∧
       lock_discipline 0 l = Some 0%nat.
Proof.
  revert w. induction calls as [|[e devpath] calls IH]; intros w.
  - split; [done|]. exists []. by rewrite app_nil_r.
  - cbn [run_calls].
    destruct (IH (exec (syslog_file_channel cfg e devpath) w))
      as (Hl & l2 & Ht2 & Ho2 & Hk2).
    destruct (call_disciplines cfg e devpath w) as (l1 & Ht1 & Ho1 & Hk1 & Hl1).
    split; [by rewrite Hl|].
    exists (l1 ++ l2). rewrite Ht2, Ht1, app_assoc.
    split; [done|]. split.
    + by rewrite owner_discipline_app, Ho1.
    + by rewrite lock_discipline_app, Hk1.
Qed.

(** X11: when CONFIG_SYSLOG_FILE_ROTATE is not set, a call removes and
    renames nothing, and changes no file but the one at [devpath]. *)
Theorem syslog_file_channel_without_rotation (cfg : config) (e : env)
    (devpath : string) (w : world) :
  CONFIG_SYSLOG_FILE_ROTATE cfg = false →
  let w' := exec (syslog_file_channel cfg e devpath) w in
  (∃ l, trace w' = trace w ++ l ∧ Forall (λ ev, is_fs_event ev = false) l) ∧
  (∀ p, p ≠ devpath → files w' !! p = files w !! p).
Proof.
  intros Hoff w'. subst w'.
  unfold exec.
  destruct (syslog_file_channel_stages cfg e devpath w)
    as (w1 & w3 & rot & w' & -> & Hf1 & _ & Hw3 & Ht3 & Ht & Hf).
  cbn [snd].
  specialize (Hw3 Hoff). subst w3.
  assert (rot = []) as ->.
  { rewrite <- (app_nil_r (trace w1)) in Ht3 at 1.
    by apply app_inv_head in Ht3. }
  split.
  - eexists. split; [exact Ht|].
    unfold channel_events, bind_events.
    repeat case_match; by repeat constructor.
  - intros p Hp. rewrite Hf, Hf1.
    repeat case_match; try done; by rewrite lookup_insert_ne.
Qed.

(** X12: with rotation configured, a call on a log at or above the
    limit (opened, stat-ed, name allocated) calls rename of the log onto
    its backup name right before syslog_dev_initialize, whatever the
    initialization and the binding then return, and calls no remove or
    rename afterwards: a failing call does not ask for the rotation to
    be undone.  (Whether the rename takes effect is not said: its result
    is discarded.) *)
Theorem syslog_file_channel_rotates_first (cfg : config) (e : env)
    (devpath : string) (w : world) (data : list Byte.byte) :
  CONFIG_SYSLOG_FILE_ROTATE cfg = true →
  files w !! devpath = Some data →
  open_fault e = false → fstat_fault e = false → malloc_fault e = false →
  CONFIG_SYSLOG_FILE_SIZE_LIMIT cfg ≤ Z.of_nat (length data) →
  let backup := devpath +:+ ".0" in
  let w' := exec (syslog_file_channel cfg e devpath) w in
  ∃ pre post,
    trace w' = trace w ++ pre ++
      EvRename devpath backup ::
      EvDevInit devpath (OPEN_FLAGS cfg) (OPEN_MODE cfg) (dev_init_result e) ::
      post ∧
    Forall (λ ev, is_fs_event ev = false) post.
Proof.
  intros Hon Hfile Ho Hs Hm Hsz backup w'. subst w'.
  unfold exec.
  destruct (syslog_file_channel_stages cfg e devpath w)
    as (w1 & w3 & rot & w' & -> & Hf1 & Hrun & _ & Ht3 & Ht & _).
  cbn [snd].
  specialize (Hrun Hon).
  rewrite (log_rotate_opened cfg e devpath data) in Hrun
    by (by rewrite ?Hf1).
  unfold observed_size in Hrun. rewrite Hs, Hm in Hrun.
  replace (_ <? _) with false in Hrun by (symmetry; apply Z.ltb_ge; lia).
  injection Hrun as <-.
  assert (Hpost : Forall (λ ev, is_fs_event ev = false)
            (EvStore (dev_init_result e) :: bind_events cfg e ++ [EvSchedUnlock])).
  { unfold bind_events. repeat case_match; by repeat constructor. }
  unfold rotate_files, sprintf_s_dot_0 in Ht3. fold backup in Ht3.
  rewrite Ht. unfold channel_events.
  destruct (files w1 !! backup); simpl in Ht3.
  - rewrite <- app_assoc in Ht3. apply app_inv_head in Ht3 as <-.
    exists (EvSchedLock ::
            match g_syslog_file_channel w with
            | Some h => [EvDevUninit h]
            | None => []
            end ++ [EvRemove backup]).
    eexists. split; [|exact Hpost]. simpl. by rewrite <- ?app_assoc.
  - apply app_inv_head in Ht3 as <-.
    exists (EvSchedLock ::
            match g_syslog_file_channel w with
            | Some h => [EvDevUninit h]
            | None => []
            end).
    eexists. split; [|exact Hpost]. simpl. by rewrite <- ?app_assoc.
Qed.

(** ** The further properties at sample inputs *)

(** X1 at a path with no file. *)
Lemma log_rotate_skips_when_open_fails_witness :
  files (boot_world small_log_fs) !! "/nolog" = None ∧
  exec (log_rotate small_cfg (env_ok 7) "/nolog") (boot_world small_log_fs)
    = boot_world small_log_fs.
Proof.
  split; [reflexivity|].
  apply (log_rotate_skips_when_open_fails small_cfg (env_ok 7)
           (boot_world small_log_fs) "/nolog").
  right. reflexivity.
Defined.

(** X3 at a one-byte log whose fstat fails: the log is rotated, and its
    byte is at the backup name. *)
Lemma log_rotate_keeps_contents_witness :
  files (boot_world small_log_fs) !! "/log" = Some [Byte.x21] ∧
  let w' := exec (log_rotate small_cfg env_fstat_fails "/log")
              (boot_world small_log_fs) in
  files w' !! "/log" = Some [Byte.x21] ∨
  (files w' !! "/log" = None ∧ files w' !! "/log.0" = Some [Byte.x21]).
Proof.
  split; [reflexivity|].
  apply (log_rotate_keeps_contents small_cfg env_fstat_fails
           (boot_world small_log_fs) "/log" [Byte.x21]).
  reflexivity.
Defined.

(** X11 at an oversized log with rotation not configured: the old backup
    is as it was. *)
Lemma syslog_file_channel_without_rotation_witness :
  CONFIG_SYSLOG_FILE_ROTATE small_cfg_no_rotate = false ∧
  files (exec (syslog_file_channel small_cfg_no_rotate (env_ok 7) "/log")
           (boot_world big_log_fs)) !! "/log.0" = Some [Byte.x21].
Proof.
  split; [reflexivity|].
  destruct (syslog_file_channel_without_rotation small_cfg_no_rotate (env_ok 7)
              "/log" (boot_world big_log_fs)) as [_ Hframe]; [reflexivity|].
  rewrite (Hframe "/log.0"); [reflexivity|discriminate].
Defined.

(** X12 at an oversized log whose device initialization fails: the
    rename was called right before, and nothing follows it but the write
    of the pointer and the unlock. *)
Lemma syslog_file_channel_rotates_first_witness :
  CONFIG_SYSLOG_FILE_ROTATE small_cfg = true ∧
  files (boot_world big_log_fs) !! "/log" = Some five_bytes ∧
  CONFIG_SYSLOG_FILE_SIZE_LIMIT small_cfg ≤ Z.of_nat (length five_bytes) ∧
  dev_init_result env_init_fails = None ∧
  ∃ pre post,
    trace (exec (syslog_file_channel small_cfg env_init_fails "/log")
             (boot_world big_log_fs)) =
      trace (boot_world big_log_fs) ++ pre ++
      EvRename "/log" "/log.0" ::
      EvDevInit "/log" (OPEN_FLAGS small_cfg) (OPEN_MODE small_cfg) None ::
      post ∧
    Forall (λ ev, is_fs_event ev = false) post.
Proof.
  split; [reflexivity|]. split; [reflexivity|].
  split; [vm_compute; discriminate|]. split; [reflexivity|].
  assert (Hsz : CONFIG_SYSLOG_FILE_SIZE_LIMIT small_cfg
                 ≤ Z.of_nat (length five_bytes)) by (vm_compute; discriminate).
  exact (syslog_file_channel_rotates_first small_cfg env_init_fails
           "/log" (boot_world big_log_fs) five_bytes
           eq_refl eq_refl eq_refl eq_refl eq_refl Hsz).
Defined.
